(** * DotStimuliPlus: the random dot field of [dot_field.py]

    A shallow embedding of the [DotField] class and proofs of its
    specification.  The arguments of the constructor are Python floats,
    that is IEEE binary64 numbers: the number of dots, a discrete outcome,
    is computed in exact binary64 arithmetic, with the errors of [int] and
    of the generator.  The coordinates of the dots and the transforms of
    [update] are idealised over the real numbers: there every arithmetic
    operation of the source is the corresponding operation on [R], and
    [np.cos] / [np.sin] are the real cosine and sine.  The object is a
    record, its methods run in a small state-and-exception monad in which
    a raised exception keeps the state reached so far, as a Python object
    keeps the mutations made before a [raise]. *)

From Stdlib Require Import Reals Lra Lia ZArith List String Bool SpecFloat.
Import ListNotations.

Local Open Scope R_scope.

(** ** Python: exceptions, floats, [int], mutable objects *)

Module Py.

Inductive exn : Type :=
| ValueError (msg : string)
| OverflowError (msg : string)
| MemoryError (msg : string).

Definition message (e : exn) : string :=
  match e with
  | ValueError msg => msg
  | OverflowError msg => msg
  | MemoryError msg => msg
  end.

(** A method of an object with state [St].  The result is either the
    raised exception or the returned value, next to the state the
    object is left in. *)
Definition M (St A : Type) : Type := St -> (exn + A) * St.

Definition ret {St A} (a : A) : M St A := fun s => (inr a, s).

Definition bind {St A B} (c : M St A) (k : A -> M St B) : M St B :=
  fun s =>
    match c s with
    | (inl e, s') => (inl e, s')
    | (inr a, s') => k a s'
    end.

Definition get {St} : M St St := fun s => (inr s, s).

Definition put {St} (s : St) : M St unit := fun _ => (inr tt, s).

Definition raise {St A} (e : exn) : M St A := fun s => (inl e, s).

(** An expression that may raise, evaluated inside a method. *)
Definition lift {St A} (r : exn + A) : M St A := fun s => (r, s).

(** [float]: the IEEE binary64 format, 53 bits of precision. *)
Definition prec : Z := 53.
Definition emax : Z := 1024.
Abbreviation float := spec_float.

(** [x * y] and [x - y] on floats, rounded to nearest even. *)
Definition fmul (x y : float) : float := SFmul prec emax x y.
Definition fsub (x y : float) : float := SFsub prec emax x y.

(** [float(z)] for an integer [z], and the binary64 number nearest to
    [m * 2 ^ e]. *)
Definition float_of_int (z : Z) : float := binary_normalize prec emax z 0 false.
Definition float_of (m e : Z) : float := binary_normalize prec emax m e false.

Definition isfinite (x : float) : bool :=
  match x with
  | S754_zero _ | S754_finite _ _ _ => true
  | S754_infinity _ | S754_nan => false
  end.

Definition signbit (x : float) : bool :=
  match x with
  | S754_zero s | S754_infinity s | S754_finite s _ _ => s
  | S754_nan => false
  end.

(** The truncation toward zero of [m * 2 ^ e], for a mantissa [m > 0]. *)
Definition trunc (m : positive) (e : Z) : Z :=
  if (0 <=? e)%Z then (Zpos m * 2 ^ e)%Z else (Zpos m / 2 ^ (- e))%Z.

(** [int(x)] on a float: truncation toward zero; infinities and NaN are
    refused. *)
Definition int (x : float) : exn + Z :=
  match x with
  | S754_zero _ => inr 0%Z
  | S754_finite s m e => inr (cond_Zopp s (trunc m e))
  | S754_infinity _ =>
      inl (OverflowError "cannot convert float infinity to integer")
  | S754_nan => inl (ValueError "cannot convert float NaN to integer")
  end.

(** The real number a finite float stands for. *)
Definition real (x : float) : R :=
  match x with
  | S754_finite s m e =>
      let v := if (0 <=? e)%Z then IZR (Zpos m * 2 ^ e)
               else IZR (Zpos m) / IZR (2 ^ (- e)) in
      if s then - v else v
  | _ => 0
  end.

(** [x in {a, b, ...}] on strings. *)
Definition contains (x : string) (s : list string) : bool :=
  existsb (String.eqb x) s.

(** The f-string [f"{prefix}{v}"]. *)
Definition fstring (prefix v : string) : string := String.append prefix v.

End Py.

Notation "x <- c ;; k" := (Py.bind c (fun x => k))
  (at level 61, c at next level, right associativity).
Notation "c ;; k" := (Py.bind c (fun _ => k))
  (at level 61, right associativity).

(** ** NumPy: the generator and the array operations the class uses *)

Module np.

(** An [N x 2] float array: a list of rows.  The second dimension is
    carried by the row type. *)
Abbreviation row := (R * R)%type.
Abbreviation ndarray := (list (R * R)).

Definition shape (a : ndarray) : nat * nat := (List.length a, 2%nat).

(** [numpy.random.Generator], by its contract: a source of samples of
    the half-open unit interval and a cursor on it.  Drawing advances
    the cursor. *)
Record Generator : Type := mkGenerator {
  samples : nat -> R;
  cursor : nat;
  samples_unit : forall n, 0 <= samples n < 1
}.

Definition advance (g : Generator) : Generator :=
  mkGenerator (samples g) (S (cursor g)) (samples_unit g).

(** [rng.random()] *)
Definition random (g : Generator) : R * Generator :=
  (samples g (cursor g), advance g).

Fixpoint draw (n : nat) (low high : R) (g : Generator)
  : list R * Generator :=
  match n with
  | O => ([], g)
  | S n' =>
      let (u, g1) := random g in
      let (us, g2) := draw n' low high g1 in
      ((low + (high - low) * u) :: us, g2)
  end.

(** [rng.uniform(low, high, size)].  The range [high - low] must be
    finite and must not have its sign bit set, and [size] must not be
    negative; these are checked in this order, before anything is drawn.
    [capacity] is the largest number of samples the machine can
    allocate for the arrays of one construction: beyond it the
    allocation fails (with [MemoryError], or with another error when
    the size does not fit the index type; the model has the one kind).
    The samples are [low + (high - low) * random()]. *)
Definition uniform (capacity : N) (low high : Py.float) (size : Z)
  (g : Generator) : (Py.exn + list R) * Generator :=
  let range := Py.fsub high low in
  if negb (Py.isfinite range)
  then (inl (Py.OverflowError "high - low range exceeds valid bounds"), g)
  else if Py.signbit range
  then (inl (Py.ValueError "high - low < 0"), g)
  else if (size <? 0)%Z
  then (inl (Py.ValueError "negative dimensions are not allowed"), g)
  else if (Z.of_N capacity <? size)%Z
  then (inl (Py.MemoryError "Unable to allocate the array"), g)
  else let (xs, g') := draw (Z.to_nat size) (Py.real low) (Py.real high) g in
       (inr xs, g').

(** [np.vstack([x, y]).T]: the two coordinate vectors as the columns of
    an [N x 2] array. *)
Definition vstack_T (x y : list R) : ndarray := combine x y.

(** [np.asarray(direction) * speed] *)
Definition scale (v : row) (k : R) : row := (fst v * k, snd v * k).

(** [a[:, 0] += d] and [a[:, 1] += d] *)
Definition iadd_col0 (d : R) (a : ndarray) : ndarray :=
  map (fun p => (fst p + d, snd p)) a.
Definition iadd_col1 (d : R) (a : ndarray) : ndarray :=
  map (fun p => (fst p, snd p + d)) a.

(** [a - [u, v]] and [a + [u, v]], broadcast over the rows *)
Definition sub_row (a : ndarray) (c : row) : ndarray :=
  map (fun p => (fst p - fst c, snd p - snd c)) a.
Definition add_row (a : ndarray) (c : row) : ndarray :=
  map (fun p => (fst p + fst c, snd p + snd c)) a.

(** A [2 x 2] matrix, as [np.array([[a, b], [c, d]])]. *)
Abbreviation mat2 := ((R * R) * (R * R))%type.

Definition T (m : mat2) : mat2 :=
  ((fst (fst m), fst (snd m)), (snd (fst m), snd (snd m))).

(** [a @ m] *)
Definition matmul (a : ndarray) (m : mat2) : ndarray :=
  map (fun p =>
         (fst p * fst (fst m) + snd p * fst (snd m),
          fst p * snd (fst m) + snd p * snd (snd m))) a.

(** [a.copy()]: arrays are values here, the copy is the same value. *)
Definition copy (a : ndarray) : ndarray := a.

End np.

(** ** The class *)

Record DotField : Type := mkDotField {
  width : R;
  height : R;
  dot_density : R;
  rng : np.Generator;
  positions : np.ndarray
}.

(** The object after the assignment [self.positions = a]. *)
Definition with_positions (self : DotField) (a : np.ndarray) : DotField :=
  mkDotField (width self) (height self) (dot_density self) (rng self) a.

Definition set_positions (a : np.ndarray) : Py.M DotField unit :=
  self <- Py.get ;;
  Py.put (with_positions self a).

(** [self.rng.uniform(low, high, size)]: the draw advances the generator
    the object holds. *)
Definition rng_uniform (capacity : N) (low high : Py.float) (size : Z)
  : Py.M DotField (list R) :=
  fun self =>
    let (r, g) := np.uniform capacity low high size (rng self) in
    (r, mkDotField (width self) (height self) (dot_density self)
                   g (positions self)).

(** [_initialize_positions].  [w], [h] and [d] are [self.width],
    [self.height] and [self.dot_density] as the floats the constructor
    received; the record keeps the real numbers they stand for.  The
    literal [0] is passed to [uniform] as the float [0.0]. *)
Definition _initialize_positions (capacity : N) (w h d : Py.float)
  : Py.M DotField np.ndarray :=
  count <- Py.lift (Py.int (Py.fmul (Py.fmul w h) d)) ;;
  x <- rng_uniform capacity (Py.float_of_int 0) w count ;;
  y <- rng_uniform capacity (Py.float_of_int 0) h count ;;
  Py.ret (np.vstack_T x y).

(** [rng or np.random.default_rng()] *)
Definition chosen_rng (rng0 : option np.Generator)
  (default_rng : np.Generator) : np.Generator :=
  match rng0 with Some g => g | None => default_rng end.

(** [DotField(width, height, dot_density, rng)].  [rng] is optional;
    [default_rng] stands for the generator [np.random.default_rng()]
    creates.  An [int] argument is taken as the float of the same value.
    [capacity] is the allocation limit of the machine the constructor
    runs on.  No object exists when the constructor raises. *)
Definition __init__ (capacity : N) (w h d : Py.float)
  (rng0 : option np.Generator) (default_rng : np.Generator)
  : Py.exn + DotField :=
  let self := mkDotField (Py.real w) (Py.real h) (Py.real d)
                (chosen_rng rng0 default_rng) [] in
  match (a <- _initialize_positions capacity w h d ;; set_positions a) self with
  | (inl e, _) => inl e
  | (inr _, self') => inr self'
  end.

(** [update(mode, direction, speed)].  [direction] is the 2-component
    vector that [dx, dy = np.asarray(direction) * speed] unpacks, [speed]
    a scalar.  The branches assign to the object; the copy of the
    positions is returned after them. *)
Definition update (mode : string) (direction : np.row) (speed : R)
  : Py.M DotField np.ndarray :=
  (if String.eqb mode "translation" then
     let (dx, dy) := np.scale direction speed in
     self <- Py.get ;;
     set_positions (np.iadd_col0 dx (positions self)) ;;
     self <- Py.get ;;
     set_positions (np.iadd_col1 dy (positions self))
   else if Py.contains mode ["cw"; "ccw"]%string then
     self <- Py.get ;;
     let angle := if String.eqb mode "ccw" then speed else - speed in
     let cx := width self / 2 in
     let cy := height self / 2 in
     let shifted := np.sub_row (positions self) (cx, cy) in
     let cos_a := cos angle in
     let sin_a := sin angle in
     let rot_matrix := ((cos_a, - sin_a), (sin_a, cos_a)) in
     let rotated := np.matmul shifted (np.T rot_matrix) in
     set_positions (np.add_row rotated (cx, cy))
   else
     Py.raise (Py.ValueError (Py.fstring "Unsupported mode: " mode))) ;;
  self <- Py.get ;;
  Py.ret (np.copy (positions self)).

(** The defaults of [update]'s parameters. *)
Definition default_mode : string := "translation".
Definition default_direction : np.row := (1, 0).
Definition default_speed : R := 1.

(** ** Notions used by the specification *)

(** The coordinates the constructor draws: first all [x], then all [y]. *)
Definition drawn_x (w : R) (n : nat) (g : np.Generator) : list R :=
  fst (np.draw n 0 w g).
Definition drawn_y (w h : R) (n : nat) (g : np.Generator) : list R :=
  fst (np.draw n 0 h (snd (np.draw n 0 w g))).

Definition supported (mode : string) : Prop :=
  mode = "translation"%string \/ mode = "cw"%string \/ mode = "ccw"%string.

Definition center (self : DotField) : np.row :=
  (width self / 2, height self / 2).

(** What the translation branch computes, column by column. *)
Definition translated (direction : np.row) (speed : R) (a : np.ndarray)
  : np.ndarray :=
  np.iadd_col1 (snd (np.scale direction speed))
    (np.iadd_col0 (fst (np.scale direction speed)) a).

(** What the rotation branch computes for a given angle. *)
Definition rotated (c : np.row) (angle : R) (a : np.ndarray) : np.ndarray :=
  np.add_row
    (np.matmul (np.sub_row a c)
       (np.T ((cos angle, - sin angle), (sin angle, cos angle))))
    c.

(** The rotation of the specification: the standard rotation by [a]
    about [(cx, cy)]. *)
Definition spec_rotation (cx cy a : R) (p : np.row) : np.row :=
  (cx + (fst p - cx) * cos a - (snd p - cy) * sin a,
   cy + (fst p - cx) * sin a + (snd p - cy) * cos a).

(** The translation of the specification. *)
Definition spec_translation (dx dy : R) (p : np.row) : np.row :=
  (fst p + dx, snd p + dy).

(** The Euclidean distance of the specification. *)
Definition distance (p q : np.row) : R :=
  sqrt ((fst p - fst q) * (fst p - fst q) + (snd p - snd q) * (snd p - snd q)).

(** *** Sequences of calls *)

(** One call of [update] by a client that catches the exception. *)
Record call : Type := mkCall {
  call_mode : string;
  call_direction : np.row;
  call_speed : R
}.

Definition do_call (self : DotField) (c : call) : DotField :=
  snd (update (call_mode c) (call_direction c) (call_speed c) self).

Definition do_calls (cs : list call) (self : DotField) : DotField :=
  fold_left do_call cs self.

(** *** Concrete inputs *)

(** A concrete generator for examples: every sample is [1/2]. *)
Definition half_rng : np.Generator :=
  np.mkGenerator (fun _ => 1 / 2) 0 ltac:(intro n; cbv beta; lra).

(** The demonstration field of the source, with two dots. *)
Definition demo_field : DotField :=
  mkDotField 200 150 (1 / 100) half_rng [(1, 2); (30, 4)].

(** ** Matplotlib: the commands [plot] sends to an axes *)

Module plt.

Inductive command : Type :=
| scatter (x y : list R) (s : R)
| set_xlim (left right : R)
| set_ylim (bottom top : R)
| set_aspect (aspect : string).

(** An [Axes], known by the commands it has received, oldest first. *)
Definition Axes : Type := list command.

(** [plt.subplots()]: a new axes, which has received nothing yet. *)
Definition subplots : Axes := [].

End plt.

(** [plot(ax)], the call without keyword arguments: the commands sent
    to the axes, in order.  Keyword arguments go to [scatter] as they
    are and are accepted or refused there; calls with keyword arguments
    are not modelled.  What the axes does with a command is not
    modelled either. *)
Definition plot (ax : option plt.Axes) (self : DotField) : plt.Axes :=
  let ax := match ax with None => plt.subplots | Some a => a end in
  ax ++ [plt.scatter (map fst (positions self)) (map snd (positions self)) 2;
         plt.set_xlim 0 (width self);
         plt.set_ylim 0 (height self);
         plt.set_aspect "equal"].

(** ** Notions used by the further properties *)

(** [mode] is one of the three modes [update] accepts, as a test. *)
Definition supportedb (mode : string) : bool :=
  String.eqb mode "translation" || Py.contains mode ["cw"; "ccw"]%string.

Definition translation_call (a b s : R) : call :=
  mkCall "translation" (a, b) s.

Definition ccw_call (theta : R) : call :=
  mkCall "ccw" default_direction theta.

(** A map of the plane that keeps the distance of every two points. *)
Definition isometry (f : np.row -> np.row) : Prop :=
  forall p q, distance (f p) (f q) = distance p q.

(** The square of the distance of a dot to the field center. *)
Definition sq_radius (self : DotField) (p : np.row) : R :=
  (fst p - width self / 2) * (fst p - width self / 2) +
  (snd p - height self / 2) * (snd p - height self / 2).

(** A generator that agrees with [half_rng] on its first six samples
    only. *)
Definition half_then_zero_rng : np.Generator :=
  np.mkGenerator (fun n => if (n <? 6)%nat then 1 / 2 else 0) 0
    ltac:(intro n; cbv beta; destruct (n <? 6)%nat; lra).

(** *** Concrete floats *)

(** The number of dots the constructor computes, or the error of [int]. *)
Definition dot_count (w h d : Py.float) : Py.exn + Z :=
  Py.int (Py.fmul (Py.fmul w h) d).

(** The floats written [0.3], [0.01] and [0.5] in Python. *)
Definition f0_3 : Py.float := Py.float_of 5404319552844595 (-54).
Definition f0_01 : Py.float := Py.float_of 5764607523034235 (-59).
Definition f0_5 : Py.float := Py.float_of 1 (-1).


(** A generator whose samples are [1/2], [1/3], [1/4], ... *)
Definition harmonic_rng : np.Generator :=
  np.mkGenerator (fun n => / (INR n + 2)) 0
    ltac:(intro n; cbv beta; pose proof (pos_INR n);
          assert (0 < / (INR n + 2)) by (apply Rinv_0_lt_compat; lra);
          assert (/ (INR n + 2) < / 1)
            by (apply Rinv_lt_contravar; lra);
          rewrite Rinv_1 in *; lra).

(** ** Running the model *)

(** The array ops keep the number of rows. *)
Lemma iadd_col0_length d a : List.length (np.iadd_col0 d a) = List.length a.
Proof. apply length_map. Qed.

Lemma iadd_col1_length d a : List.length (np.iadd_col1 d a) = List.length a.
Proof. apply length_map. Qed.

Lemma sub_row_length a c : List.length (np.sub_row a c) = List.length a.
Proof. apply length_map. Qed.

Lemma add_row_length a c : List.length (np.add_row a c) = List.length a.
Proof. apply length_map. Qed.

Lemma matmul_length a m : List.length (np.matmul a m) = List.length a.
Proof. apply length_map. Qed.

(** The columns of [np.vstack([x, y]).T] are [x] and [y]. *)
Lemma map_fst_combine {A B} (l : list A) (l' : list B) :
  List.length l = List.length l' -> map fst (combine l l') = l.
Proof.
  revert l'; induction l as [|a l IH]; intros [|b l'] H; simpl in *;
    try reflexivity; try discriminate.
  f_equal. apply IH. now injection H.
Qed.

Lemma map_snd_combine {A B} (l : list A) (l' : list B) :
  List.length l = List.length l' -> map snd (combine l l') = l'.
Proof.
  revert l'; induction l as [|a l IH]; intros [|b l'] H; simpl in *;
    try reflexivity; try discriminate.
  f_equal. apply IH. now injection H.
Qed.

Lemma nth_map_seq {A} (f : nat -> A) (n i : nat) (d : A) :
  (i < n)%nat -> nth i (map f (seq 0 n)) d = f i.
Proof.
  intro Hi.
  rewrite (nth_indep _ d (f 0%nat)) by (now rewrite length_map, length_seq).
  rewrite map_nth, seq_nth by exact Hi. reflexivity.
Qed.

(** *** The generator *)

Lemma draw_samples n low high g :
  np.samples (snd (np.draw n low high g)) = np.samples g.
Proof.
  revert g; induction n as [|n IH]; intro g; simpl; [reflexivity|].
  specialize (IH (np.advance g)).
  destruct (np.draw n low high (np.advance g)) as [us g2]; simpl in *.
  exact IH.
Qed.

Lemma draw_cursor n low high g :
  np.cursor (snd (np.draw n low high g)) = (np.cursor g + n)%nat.
Proof.
  revert g; induction n as [|n IH]; intro g; simpl; [lia|].
  specialize (IH (np.advance g)).
  destruct (np.draw n low high (np.advance g)) as [us g2]; simpl in *.
  lia.
Qed.

Lemma draw_values n low high g :
  fst (np.draw n low high g) =
  map (fun i => low + (high - low) * np.samples g (np.cursor g + i))
      (seq 0 n).
Proof.
  revert g; induction n as [|n IH]; intro g; simpl; [reflexivity|].
  specialize (IH (np.advance g)).
  destruct (np.draw n low high (np.advance g)) as [us g2]; simpl in *.
  rewrite Nat.add_0_r; f_equal.
  rewrite IH, <- seq_shift, map_map.
  apply map_ext; intro i. now rewrite Nat.add_succ_r.
Qed.

Lemma draw_length n low high g :
  List.length (fst (np.draw n low high g)) = n.
Proof. now rewrite draw_values, length_map, length_seq. Qed.

Lemma draw_bounds n low high g :
  low < high ->
  Forall (fun x => low <= x < high) (fst (np.draw n low high g)).
Proof.
  intro Hlh. rewrite draw_values. apply Forall_forall.
  intros x Hx. apply in_map_iff in Hx as [i [<- _]].
  pose proof (np.samples_unit g (np.cursor g + i)) as Hu. nra.
Qed.

(** *** Floats and [int] *)

Lemma binary_round_aux_cases sx mx ex lx :
  let r := binary_round_aux Py.prec Py.emax sx mx ex lx in
  r = S754_zero sx \/ (exists m e, r = S754_finite sx m e) \/
  r = S754_infinity sx \/ r = S754_nan.
Proof.
  cbv zeta. unfold binary_round_aux.
  destruct (shr_fexp Py.prec Py.emax mx ex lx) as [mrs' e'].
  destruct (shr_fexp Py.prec Py.emax _ e' loc_Exact) as [mrs'' e''].
  destruct (shr_m mrs'') as [|m|m]; [now left| |now right; right; right].
  destruct (Z.leb e'' (Z.sub Py.emax Py.prec)).
  - right; left. now exists m, e''.
  - right; right; now left.
Qed.

Lemma fmul_finite_inv x y :
  Py.isfinite (Py.fmul x y) = true ->
  Py.isfinite x = true /\ Py.isfinite y = true.
Proof. destruct x, y; cbn; intro H; try discriminate; now split. Qed.

Lemma fmul_signbit x y :
  Py.signbit x = false -> Py.signbit y = false ->
  Py.signbit (Py.fmul x y) = false.
Proof.
  destruct x as [sx|sx| |sx mx ex], y as [sy|sy| |sy my ey];
    cbn [Py.signbit]; intros Hx Hy; subst; try reflexivity.
  unfold Py.fmul, SFmul.
  destruct (binary_round_aux_cases (xorb false false) (Zpos (Pos.mul mx my))
              (Z.add ex ey) loc_Exact) as [H|[(m & e & H)|[H|H]]];
    cbv zeta in H; rewrite H; reflexivity.
Qed.

Lemma fmul_zero_r x s :
  Py.fmul x (S754_zero s) = S754_nan \/
  exists s', Py.fmul x (S754_zero s) = S754_zero s'.
Proof. destruct x; cbn; eauto. Qed.

Lemma trunc_nonneg m e : (0 <= Py.trunc m e)%Z.
Proof.
  unfold Py.trunc. destruct (Z.leb_spec 0 e).
  - apply Z.mul_nonneg_nonneg; [lia|]. apply Z.pow_nonneg. lia.
  - apply Z.div_pos; [lia|]. apply Z.pow_pos_nonneg; lia.
Qed.

Lemma int_signbit x N :
  Py.signbit x = false -> Py.int x = inr N -> (0 <= N)%Z.
Proof.
  destruct x as [s|s| |s m e]; cbn; intros Hs H; try discriminate.
  - injection H as <-. lia.
  - subst s. injection H as <-. apply trunc_nonneg.
Qed.

Lemma int_isfinite x N : Py.int x = inr N -> Py.isfinite x = true.
Proof. destruct x; cbn; intro H; try discriminate; reflexivity. Qed.

Lemma int_total x : Py.isfinite x = true -> exists N, Py.int x = inr N.
Proof. destruct x; cbn; intro H; try discriminate; eauto. Qed.

(** [trunc] is the integer part of the real value. *)
Lemma trunc_floor m e :
  IZR (Py.trunc m e) <= Py.real (S754_finite false m e)
    < IZR (Py.trunc m e) + 1.
Proof.
  unfold Py.trunc, Py.real. destruct (Z.leb_spec 0 e) as [He|He]; [lra|].
  set (P := (2 ^ (- e))%Z). set (q := (Zpos m / P)%Z).
  assert (HP : (0 < P)%Z) by (apply Z.pow_pos_nonneg; lia).
  assert (Hlo : (P * q <= Zpos m)%Z) by (apply Z.mul_div_le; exact HP).
  assert (Hhi : (Zpos m < P * Z.succ q)%Z)
    by (apply Z.mul_succ_div_gt; exact HP).
  apply IZR_le in Hlo. apply IZR_lt in Hhi. apply IZR_lt in HP.
  rewrite mult_IZR in Hlo, Hhi. rewrite succ_IZR in Hhi.
  assert (Hinv : 0 < / IZR P) by (apply Rinv_0_lt_compat; exact HP).
  unfold Rdiv. split.
  - replace (IZR q) with (IZR P * IZR q * / IZR P) by (field; lra).
    apply Rmult_le_compat_r; lra.
  - replace (IZR q + 1) with (IZR P * (IZR q + 1) * / IZR P) by (field; lra).
    apply Rmult_lt_compat_r; lra.
Qed.

Lemma int_floor x N :
  Py.signbit x = false -> Py.int x = inr N ->
  IZR N <= Py.real x < IZR N + 1.
Proof.
  destruct x as [s|s| |s m e]; cbn [Py.signbit Py.int]; intros Hs H;
    try discriminate.
  - injection H as <-. cbn. lra.
  - subst s. injection H as <-. cbn [cond_Zopp]. apply trunc_floor.
Qed.

Lemma real_pos x :
  SFltb (S754_zero false) x = true -> Py.isfinite x = true -> 0 < Py.real x.
Proof.
  destruct x as [s|s| |s m e]; intros Hlt Hfin; cbn in Hlt, Hfin;
    try discriminate.
  destruct s; [discriminate|]. unfold Py.real.
  destruct (Z.leb_spec 0 e) as [He|He].
  - apply IZR_lt. apply Z.mul_pos_pos; [lia|]. apply Z.pow_pos_nonneg; lia.
  - apply Rdiv_lt_0_compat; apply IZR_lt; [lia|].
    apply Z.pow_pos_nonneg; lia.
Qed.

Lemma fsub_zero x :
  Py.isfinite x = true -> Py.fsub x (Py.float_of_int 0) = x.
Proof. destruct x as [[|]|s| |s m e]; cbn; intro H; try discriminate; reflexivity. Qed.

Lemma positive_signbit x :
  SFltb (S754_zero false) x = true -> Py.signbit x = false.
Proof. destruct x as [s|[|]| |[|] m e]; cbn; intro H; try discriminate; reflexivity. Qed.

Lemma nonneg_cases x :
  SFleb (S754_zero false) x = true ->
  (exists s, x = S754_zero s) \/ Py.signbit x = false.
Proof.
  destruct x as [s|[|]| |[|] m e]; cbn; intro H; try discriminate; eauto.
Qed.

(** *** The constructor *)

(** The constructor, step by step: the count, the [x], the [y]. *)
Lemma init_unfold cap w h d rng0 dflt :
  __init__ cap w h d rng0 dflt =
  match dot_count w h d with
  | inl e => inl e
  | inr N =>
      match np.uniform cap (Py.float_of_int 0) w N (chosen_rng rng0 dflt) with
      | (inl e, _) => inl e
      | (inr xs, g1) =>
          match np.uniform cap (Py.float_of_int 0) h N g1 with
          | (inl e, _) => inl e
          | (inr ys, g2) =>
              inr (mkDotField (Py.real w) (Py.real h) (Py.real d) g2
                     (np.vstack_T xs ys))
          end
      end
  end.
Proof.
  unfold __init__, _initialize_positions, rng_uniform, set_positions,
    with_positions, dot_count, Py.bind, Py.lift, Py.get, Py.put, Py.ret.
  destruct (Py.int (Py.fmul (Py.fmul w h) d)) as [e|N]; [reflexivity|].
  cbn [width height dot_density rng positions].
  destruct (np.uniform cap (Py.float_of_int 0) w N (chosen_rng rng0 dflt))
    as [[e|xs] g1]; [reflexivity|].
  cbn [width height dot_density rng positions].
  destruct (np.uniform cap (Py.float_of_int 0) h N g1) as [[e|ys] g2];
    reflexivity.
Qed.

Lemma dot_count_finite w h d N :
  dot_count w h d = inr N ->
  Py.isfinite w = true /\ Py.isfinite h = true /\ Py.isfinite d = true.
Proof.
  intro H. apply int_isfinite in H.
  apply fmul_finite_inv in H as [Hwh Hd].
  apply fmul_finite_inv in Hwh as [Hw Hh]. now repeat split.
Qed.

(** [uniform(0, high, size)] for a finite [high]. *)
Lemma uniform_from_zero cap high N g :
  Py.isfinite high = true ->
  np.uniform cap (Py.float_of_int 0) high N g =
  if Py.signbit high then (inl (Py.ValueError "high - low < 0"), g)
  else if (N <? 0)%Z
  then (inl (Py.ValueError "negative dimensions are not allowed"), g)
  else if (Z.of_N cap <? N)%Z
  then (inl (Py.MemoryError "Unable to allocate the array"), g)
  else (inr (fst (np.draw (Z.to_nat N) 0 (Py.real high) g)),
        snd (np.draw (Z.to_nat N) 0 (Py.real high) g)).
Proof.
  intro Hfin. unfold np.uniform. rewrite (fsub_zero high Hfin), Hfin.
  cbn [negb]. destruct (Py.signbit high); [reflexivity|].
  destruct (N <? 0)%Z; [reflexivity|].
  destruct (Z.of_N cap <? N)%Z; [reflexivity|].
  change (Py.real (Py.float_of_int 0)) with 0.
  now destruct (np.draw (Z.to_nat N) 0 (Py.real high) g).
Qed.

Lemma init_run cap w h d rng0 dflt N :
  dot_count w h d = inr N -> (0 <= N <= Z.of_N cap)%Z ->
  Py.signbit w = false -> Py.signbit h = false ->
  let g := chosen_rng rng0 dflt in
  let n := Z.to_nat N in
  __init__ cap w h d rng0 dflt =
  inr (mkDotField (Py.real w) (Py.real h) (Py.real d)
         (snd (np.draw n 0 (Py.real h) (snd (np.draw n 0 (Py.real w) g))))
         (np.vstack_T (drawn_x (Py.real w) n g)
                      (drawn_y (Py.real w) (Py.real h) n g))).
Proof.
  intros Hc [HN Hcap] Hsw Hsh g n.
  destruct (dot_count_finite w h d N Hc) as (Hw & Hh & _).
  assert (HltN : (N <? 0)%Z = false) by (apply Z.ltb_ge; exact HN).
  assert (Hfit : (Z.of_N cap <? N)%Z = false) by (apply Z.ltb_ge; exact Hcap).
  rewrite init_unfold, Hc, (uniform_from_zero cap w N _ Hw), Hsw, HltN, Hfit.
  rewrite (uniform_from_zero cap h N _ Hh), Hsh, HltN, Hfit. reflexivity.
Qed.

Lemma init_inv cap w h d rng0 dflt self :
  __init__ cap w h d rng0 dflt = inr self ->
  exists N,
    dot_count w h d = inr N /\ (0 <= N <= Z.of_N cap)%Z /\
    Py.signbit w = false /\ Py.signbit h = false /\
    let g := chosen_rng rng0 dflt in
    let n := Z.to_nat N in
    self = mkDotField (Py.real w) (Py.real h) (Py.real d)
             (snd (np.draw n 0 (Py.real h) (snd (np.draw n 0 (Py.real w) g))))
             (np.vstack_T (drawn_x (Py.real w) n g)
                          (drawn_y (Py.real w) (Py.real h) n g)).
Proof.
  intro Hinit. rewrite init_unfold in Hinit.
  destruct (dot_count w h d) as [e|N] eqn:Hc; [discriminate|].
  destruct (dot_count_finite w h d N Hc) as (Hw & Hh & _).
  rewrite (uniform_from_zero cap w N _ Hw) in Hinit.
  destruct (Py.signbit w) eqn:Hsw; [discriminate|].
  destruct (Z.ltb_spec N 0) as [Hneg|Hpos]; [discriminate|].
  destruct (Z.ltb_spec (Z.of_N cap) N) as [Hbig|Hfit]; [discriminate|].
  rewrite (uniform_from_zero cap h N _ Hh) in Hinit.
  destruct (Py.signbit h) eqn:Hsh; [discriminate|].
  assert (HltN : (N <? 0)%Z = false) by (apply Z.ltb_ge; exact Hpos).
  assert (Hfit' : (Z.of_N cap <? N)%Z = false) by (apply Z.ltb_ge; exact Hfit).
  rewrite HltN, Hfit' in Hinit.
  exists N. split; [reflexivity|]. split; [lia|].
  split; [reflexivity|]. split; [reflexivity|].
  cbv zeta. injection Hinit as <-. reflexivity.
Qed.

(** The count of a product of positive factors is not negative. *)
Lemma dot_count_nonneg w h d N :
  SFltb (S754_zero false) w = true -> SFltb (S754_zero false) h = true ->
  SFleb (S754_zero false) d = true ->
  dot_count w h d = inr N -> (0 <= N)%Z.
Proof.
  intros Hw Hh Hd Hc. unfold dot_count in Hc.
  apply positive_signbit in Hw, Hh.
  pose proof (fmul_signbit w h Hw Hh) as Hwh.
  destruct (nonneg_cases d Hd) as [[s ->]|Hsd].
  - destruct (fmul_zero_r (Py.fmul w h) s) as [Hz|[s' Hz]];
      rewrite Hz in Hc; cbn in Hc; [discriminate|].
    injection Hc as <-. lia.
  - eapply int_signbit; [|exact Hc]. now apply fmul_signbit.
Qed.

Lemma dot_count_floor w h d N :
  SFltb (S754_zero false) w = true -> SFltb (S754_zero false) h = true ->
  SFleb (S754_zero false) d = true ->
  dot_count w h d = inr N ->
  IZR N <= Py.real (Py.fmul (Py.fmul w h) d) < IZR N + 1.
Proof.
  intros Hw Hh Hd Hc. unfold dot_count in Hc.
  apply positive_signbit in Hw, Hh.
  pose proof (fmul_signbit w h Hw Hh) as Hwh.
  destruct (nonneg_cases d Hd) as [[s ->]|Hsd].
  - destruct (fmul_zero_r (Py.fmul w h) s) as [Hz|[s' Hz]];
      rewrite Hz in Hc |- *; cbn in Hc; [discriminate|].
    injection Hc as <-. cbn. lra.
  - apply int_floor; [|exact Hc]. now apply fmul_signbit.
Qed.

Lemma vstack_T_length n low1 high1 low2 high2 g g' :
  List.length (np.vstack_T (fst (np.draw n low1 high1 g))
                           (fst (np.draw n low2 high2 g'))) = n.
Proof.
  unfold np.vstack_T. now rewrite length_combine, !draw_length, Nat.min_id.
Qed.

(** C1. For floats [w > 0], [h > 0] and [0 <= d <= 1] a freshly
    constructed field has exactly [N] positions, where [N] is [int] of
    the floating-point product [w * h * d]: its truncation toward zero,
    a natural number with [N <= w * h * d < N + 1] for the value of the
    rounded product.  The constructor returns such a field whenever the
    floating-point product is finite and [N] dots can be allocated, and
    raises when the product is infinite or NaN. *)
Theorem count_invariant cap w h d rng0 dflt :
  SFltb (S754_zero false) w = true -> SFltb (S754_zero false) h = true ->
  SFleb (S754_zero false) d = true -> SFleb d (Py.float_of_int 1) = true ->
  let p := Py.fmul (Py.fmul w h) d in
  (forall self, __init__ cap w h d rng0 dflt = inr self ->
     exists N, Py.int p = inr N /\ (0 <= N)%Z /\
       Z.of_nat (List.length (positions self)) = N /\
       IZR N <= Py.real p < IZR N + 1) /\
  (forall N, Py.int p = inr N -> (N <= Z.of_N cap)%Z ->
     exists self, __init__ cap w h d rng0 dflt = inr self) /\
  (Py.isfinite p = true -> exists N, Py.int p = inr N /\ (0 <= N)%Z) /\
  (Py.isfinite p = false -> exists e, __init__ cap w h d rng0 dflt = inl e).
Proof.
  intros Hw Hh Hd0 Hd1 p. split; [|split; [|split]].
  - intros self Hinit.
    apply init_inv in Hinit as (N & Hc & [HN _] & _ & _ & ->).
    exists N. split; [exact Hc|]. split; [exact HN|]. split.
    + cbn [positions]. unfold drawn_x, drawn_y.
      rewrite vstack_T_length. now apply Z2Nat.id.
    + now apply dot_count_floor.
  - intros N Hc Hcap. eexists.
    apply (init_run cap w h d rng0 dflt N Hc).
    + split; [now apply (dot_count_nonneg w h d)|exact Hcap].
    + now apply positive_signbit.
    + now apply positive_signbit.
  - intro Hfin. destruct (int_total p Hfin) as [N Hc]. exists N.
    split; [exact Hc|]. now apply (dot_count_nonneg w h d).
  - intro Hinf. rewrite init_unfold. unfold dot_count. fold p.
    destruct p; try discriminate; cbn; eexists; reflexivity.
Qed.

Lemma count_invariant_witness :
  exists self,
    __init__ 1000 (Py.float_of_int 10) (Py.float_of_int 1) f0_3 None
      harmonic_rng = inr self /\
    List.length (positions self) = 3%nat.
Proof.
  destruct (count_invariant 1000 (Py.float_of_int 10) (Py.float_of_int 1)
              f0_3 None harmonic_rng eq_refl eq_refl eq_refl eq_refl)
    as (Hall & Hex & _).
  destruct (Hex 3%Z eq_refl ltac:(vm_compute; discriminate))
    as [self Hself].
  exists self. split; [exact Hself|].
  destruct (Hall self Hself) as (N & HN & _ & Hlen & _).
  vm_compute in HN. injection HN as <-. lia.
Defined.

Lemma scale_interval W u a b :
  0 < W -> (a <= 0 + (W - 0) * u < b <-> a / W <= u < b / W).
Proof.
  intro HW.
  assert (Ha : a = a / W * W) by (field; lra).
  assert (Hb : b = b / W * W) by (field; lra).
  set (a' := a / W) in *. set (b' := b / W) in *.
  rewrite Ha, Hb. split; intros [H1 H2]; split; nra.
Qed.

(** C2. Every initial position of a field constructed with [w > 0] and
    [h > 0] lies in [[0, w) x [0, h)].  The coordinates are drawn per
    axis: with [N] the computed dot count, the [x] are the first [N]
    draws of the generator scaled to [[0, w)], the [y] the next [N]
    draws scaled to [[0, h)], and dot [i] pairs the [i]-th [x] with the
    [i]-th [y].  Each coordinate is the unit sample scaled by the
    extent, so it falls in [[a, b)] exactly when the sample falls in
    the interval of [1/w] (or [1/h]) times that length: uniform samples
    give uniform coordinates. *)
Theorem bounds_at_init cap w h d rng0 dflt self :
  SFltb (S754_zero false) w = true -> SFltb (S754_zero false) h = true ->
  __init__ cap w h d rng0 dflt = inr self ->
  exists N,
    dot_count w h d = inr N /\ (0 <= N)%Z /\
    let g := chosen_rng rng0 dflt in
    let n := Z.to_nat N in
    let W := Py.real w in
    let H := Py.real h in
    width self = W /\ height self = H /\
    List.length (positions self) = n /\
    positions self = np.vstack_T (drawn_x W n g) (drawn_y W H n g) /\
    map fst (positions self) = drawn_x W n g /\
    map snd (positions self) = drawn_y W H n g /\
    List.length (drawn_x W n g) = n /\
    List.length (drawn_y W H n g) = n /\
    Forall (fun p => 0 <= fst p < W /\ 0 <= snd p < H) (positions self) /\
    (forall i, (i < n)%nat ->
       nth i (positions self) (0, 0) =
       (0 + (W - 0) * np.samples g (np.cursor g + i),
        0 + (H - 0) * np.samples g (np.cursor g + n + i))) /\
    (forall i a b, (i < n)%nat ->
       (a <= fst (nth i (positions self) (0, 0)) < b <->
        a / W <= np.samples g (np.cursor g + i) < b / W) /\
       (a <= snd (nth i (positions self) (0, 0)) < b <->
        a / H <= np.samples g (np.cursor g + n + i) < b / H)).
Proof.
  intros Hw Hh Hinit.
  apply init_inv in Hinit as (N & Hc & [HN _] & _ & _ & ->).
  exists N. split; [exact Hc|]. split; [exact HN|]. cbv zeta.
  destruct (dot_count_finite w h d N Hc) as (Hfw & Hfh & _).
  pose proof (real_pos w Hw Hfw) as HW. pose proof (real_pos h Hh Hfh) as HH.
  cbn [positions width height].
  set (g := chosen_rng rng0 dflt). set (n := Z.to_nat N).
  set (W := Py.real w) in *. set (H := Py.real h) in *.
  assert (Hlx : List.length (drawn_x W n g) = n) by apply draw_length.
  assert (Hly : List.length (drawn_y W H n g) = n) by apply draw_length.
  assert (Hx : Forall (fun x => 0 <= x < W) (drawn_x W n g))
    by (apply draw_bounds; exact HW).
  assert (Hy : Forall (fun y => 0 <= y < H) (drawn_y W H n g))
    by (apply draw_bounds; exact HH).
  assert (Hnth : forall i, (i < n)%nat ->
     nth i (np.vstack_T (drawn_x W n g) (drawn_y W H n g)) (0, 0) =
     (0 + (W - 0) * np.samples g (np.cursor g + i),
      0 + (H - 0) * np.samples g (np.cursor g + n + i))).
  { intros i Hi. unfold np.vstack_T.
    rewrite (combine_nth _ _ i 0 0) by lia.
    unfold drawn_x, drawn_y. rewrite !draw_values.
    rewrite draw_samples, draw_cursor.
    rewrite !nth_map_seq by exact Hi. reflexivity. }
  split; [reflexivity|]. split; [reflexivity|].
  split; [unfold np.vstack_T; rewrite length_combine; lia|].
  split; [reflexivity|].
  split; [apply map_fst_combine; lia|].
  split; [apply map_snd_combine; lia|].
  split; [exact Hlx|]. split; [exact Hly|].
  split; [|split; [exact Hnth|]].
  - apply Forall_forall. intros [x y] Hin. unfold np.vstack_T in Hin.
    rewrite Forall_forall in Hx, Hy. cbn [fst snd]. split.
    + apply Hx. eapply in_combine_l; exact Hin.
    + apply Hy. eapply in_combine_r; exact Hin.
  - intros i a b Hi. rewrite (Hnth i Hi). cbn [fst snd].
    split; now apply scale_interval.
Qed.

Lemma bounds_at_init_witness :
  exists self,
    __init__ 1000 (Py.float_of_int 10) (Py.float_of_int 1) f0_3 None
      harmonic_rng = inr self /\
    List.length (positions self) = 3%nat /\
    Forall (fun p => 0 <= fst p < Py.real (Py.float_of_int 10) /\
                     0 <= snd p < Py.real (Py.float_of_int 1))
      (positions self) /\
    (forall i, (i < 3)%nat ->
       nth i (positions self) (0, 0) =
       (0 + (Py.real (Py.float_of_int 10) - 0) *
              np.samples harmonic_rng (np.cursor harmonic_rng + i),
        0 + (Py.real (Py.float_of_int 1) - 0) *
              np.samples harmonic_rng (np.cursor harmonic_rng + 3 + i))).
Proof.
  assert (Hc : dot_count (Py.float_of_int 10) (Py.float_of_int 1) f0_3
               = inr 3%Z) by (vm_compute; reflexivity).
  pose proof (init_run 1000 (Py.float_of_int 10) (Py.float_of_int 1) f0_3
                None harmonic_rng 3 Hc ltac:(cbn; lia) eq_refl eq_refl)
    as Hrun.
  cbv zeta in Hrun.
  eexists. split; [exact Hrun|].
  destruct (bounds_at_init 1000 (Py.float_of_int 10) (Py.float_of_int 1) f0_3
              None harmonic_rng _ eq_refl eq_refl Hrun)
    as (N & HN & _ & Hall).
  rewrite Hc in HN. injection HN as <-. cbv zeta in Hall.
  destruct Hall as (_ & _ & Hlen & _ & _ & _ & _ & _ & Hbox & Hnth & _).
  split; [exact Hlen|]. split; [exact Hbox|]. exact Hnth.
Defined.
(** *** [update] *)

Lemma with_positions_twice self a b :
  with_positions (with_positions self a) b = with_positions self b.
Proof. reflexivity. Qed.

Lemma positions_with_positions self a : positions (with_positions self a) = a.
Proof. reflexivity. Qed.

Lemma center_with_positions self a : center (with_positions self a) = center self.
Proof. reflexivity. Qed.

Lemma with_positions_same self : with_positions self (positions self) = self.
Proof. now destruct self. Qed.

Lemma update_translation direction speed self :
  update "translation" direction speed self =
  (inr (translated direction speed (positions self)),
   with_positions self (translated direction speed (positions self))).
Proof.
  unfold update, translated. cbn [String.eqb Ascii.eqb Bool.eqb].
  destruct (np.scale direction speed) as [dx dy].
  reflexivity.
Qed.

Lemma update_ccw direction speed self :
  update "ccw" direction speed self =
  (inr (rotated (center self) speed (positions self)),
   with_positions self (rotated (center self) speed (positions self))).
Proof. reflexivity. Qed.

Lemma update_cw direction speed self :
  update "cw" direction speed self =
  (inr (rotated (center self) (- speed) (positions self)),
   with_positions self (rotated (center self) (- speed) (positions self))).
Proof. reflexivity. Qed.

Lemma update_unsupported mode direction speed self :
  ~ supported mode ->
  update mode direction speed self =
  (inl (Py.ValueError (String.append "Unsupported mode: " mode)), self).
Proof.
  intro Hmode. unfold update, Py.contains, existsb.
  destruct (String.eqb_spec mode "translation") as [->|_].
  { exfalso; apply Hmode; left; reflexivity. }
  destruct (String.eqb_spec mode "cw") as [->|_].
  { exfalso; apply Hmode; right; left; reflexivity. }
  destruct (String.eqb_spec mode "ccw") as [->|_].
  { exfalso; apply Hmode; right; right; reflexivity. }
  reflexivity.
Qed.

Lemma supported_dec mode : {supported mode} + {~ supported mode}.
Proof.
  unfold supported.
  destruct (string_dec mode "translation"); [left; tauto|].
  destruct (string_dec mode "cw"); [left; tauto|].
  destruct (string_dec mode "ccw"); [left; tauto|].
  right; tauto.
Defined.

(** The three outcomes of a call, by the mode. *)
Lemma update_cases mode direction speed self :
  (mode = "translation"%string /\
   update mode direction speed self =
   (inr (translated direction speed (positions self)),
    with_positions self (translated direction speed (positions self)))) \/
  (exists angle,
     (mode = "ccw"%string /\ angle = speed \/
      mode = "cw"%string /\ angle = - speed) /\
     update mode direction speed self =
     (inr (rotated (center self) angle (positions self)),
      with_positions self (rotated (center self) angle (positions self)))) \/
  (~ supported mode /\
   update mode direction speed self =
   (inl (Py.ValueError (String.append "Unsupported mode: " mode)), self)).
Proof.
  destruct (supported_dec mode) as [ [ -> | [ -> | -> ] ] | Hno ].
  - left. split; [reflexivity|apply update_translation].
  - right; left. exists (- speed). split; [right; tauto|apply update_cw].
  - right; left. exists speed. split; [left; tauto|apply update_ccw].
  - right; right. split; [exact Hno|now apply update_unsupported].
Qed.

(** ** The specification of [update] *)

(** C3. A mode other than "translation", "cw" and "ccw" makes [update]
    raise a [ValueError] whose message ends in the offending mode, and
    the object, its positions included, is exactly as before the call.
    No call with a supported mode raises: the unsupported mode is the
    only error of [update]. *)
Theorem unsupported_mode mode direction speed self :
  (mode <> "translation"%string -> mode <> "cw"%string ->
   mode <> "ccw"%string ->
   update mode direction speed self =
     (inl (Py.ValueError (String.append "Unsupported mode: " mode)), self) /\
   positions (snd (update mode direction speed self)) = positions self) /\
  (forall e, fst (update mode direction speed self) = inl e ->
     mode <> "translation"%string /\ mode <> "cw"%string /\
     mode <> "ccw"%string /\
     Py.message e = String.append "Unsupported mode: " mode).
Proof.
  split.
  - intros Ht Hcw Hccw.
    assert (Hno : ~ supported mode) by (unfold supported; tauto).
    rewrite (update_unsupported mode direction speed self Hno).
    split; reflexivity.
  - intros e He.
    destruct (update_cases mode direction speed self)
      as [[_ Hrun]|[[angle [_ Hrun]]|[Hno Hrun]]];
      rewrite Hrun in He; cbn [fst] in He; try discriminate.
    injection He as <-. unfold supported in Hno. cbn [Py.message].
    repeat split; try reflexivity; intro; apply Hno; tauto.
Qed.

Lemma unsupported_mode_witness :
  update "diagonal" default_direction default_speed
    (mkDotField 200 150 (1 / 100) half_rng [(1, 2)]) =
    (inl (Py.ValueError "Unsupported mode: diagonal"),
     mkDotField 200 150 (1 / 100) half_rng [(1, 2)]) /\
  positions
    (snd (update "diagonal" default_direction default_speed
            (mkDotField 200 150 (1 / 100) half_rng [(1, 2)]))) = [(1, 2)].
Proof.
  apply (unsupported_mode "diagonal" default_direction default_speed
           (mkDotField 200 150 (1 / 100) half_rng [(1, 2)]));
    discriminate.
Defined.

Lemma translated_spec direction speed a :
  translated direction speed a =
  map (spec_translation (fst direction * speed) (snd direction * speed)) a.
Proof.
  unfold translated, np.iadd_col1, np.iadd_col0, np.scale, spec_translation.
  rewrite map_map. reflexivity.
Qed.

(** C4. In mode "translation" with direction [(a, b)] and speed [s] the
    displacement is [(a * s, b * s)] and every position [(x, y)] becomes
    exactly [(x + a * s, y + b * s)]; nothing wraps or clamps, and a dot
    inside the field can be outside it after the call. *)
Theorem translation_exact :
  (forall self a b s,
     np.scale (a, b) s = (a * s, b * s) /\
     update "translation" (a, b) s self =
       (inr (map (fun p => (fst p + a * s, snd p + b * s)) (positions self)),
        with_positions self
          (map (fun p => (fst p + a * s, snd p + b * s)) (positions self)))) /\
  (exists self a b s x y,
     positions self = [(x, y)] /\
     0 <= x <= width self /\ 0 <= y <= height self /\
     positions (snd (update "translation" (a, b) s self)) =
       [(x + a * s, y + b * s)] /\
     width self < x + a * s).
Proof.
  split.
  - intros self a b s. split; [reflexivity|].
    rewrite update_translation, translated_spec. reflexivity.
  - exists (mkDotField 200 150 (1 / 100) half_rng [(199, 1)]), 1, 0, 5, 199, 1.
    rewrite update_translation, translated_spec.
    cbn. repeat split; lra.
Qed.

Lemma rotated_spec c angle a :
  rotated c angle a = map (spec_rotation (fst c) (snd c) angle) a.
Proof.
  unfold rotated, np.add_row, np.matmul, np.sub_row, np.T, spec_rotation.
  rewrite !map_map. apply map_ext. intros [x y]. cbn [fst snd].
  f_equal; ring.
Qed.

(** C5. Mode "ccw" rotates every position about the field center
    [(width / 2, height / 2)] by the angle [+speed] with the standard
    rotation formula, mode "cw" applies the same formula with the angle
    [-speed]; a "cw" call is the "ccw" call of the negated speed and the
    other way round. *)
Theorem rotation_formula self direction speed :
  let cx := width self / 2 in
  let cy := height self / 2 in
  update "ccw" direction speed self =
    (inr (map (spec_rotation cx cy speed) (positions self)),
     with_positions self (map (spec_rotation cx cy speed) (positions self))) /\
  update "cw" direction speed self =
    (inr (map (spec_rotation cx cy (- speed)) (positions self)),
     with_positions self
       (map (spec_rotation cx cy (- speed)) (positions self))) /\
  update "cw" direction speed self = update "ccw" direction (- speed) self /\
  update "ccw" direction speed self = update "cw" direction (- speed) self.
Proof.
  intros cx cy.
  rewrite !update_ccw, !update_cw, !rotated_spec, Ropp_involutive.
  repeat split; reflexivity.
Qed.

(** *** Algebra of the two transforms *)

Lemma spec_rotation_inverse cx cy a p :
  spec_rotation cx cy (- a) (spec_rotation cx cy a p) = p.
Proof.
  destruct p as [x y]. unfold spec_rotation. cbn [fst snd].
  rewrite cos_neg, sin_neg.
  pose proof (sin2_cos2 a) as H. unfold Rsqr in H.
  f_equal.
  - transitivity (cx + (x - cx) * (sin a * sin a + cos a * cos a));
      [ring | rewrite H; ring].
  - transitivity (cy + (y - cy) * (sin a * sin a + cos a * cos a));
      [ring | rewrite H; ring].
Qed.

Lemma rotated_inverse c a ps : rotated c (- a) (rotated c a ps) = ps.
Proof.
  rewrite !rotated_spec, map_map.
  rewrite <- (map_id ps) at 2. apply map_ext.
  intro p. apply spec_rotation_inverse.
Qed.

(** C6. A "ccw" call with angle [theta] followed by a "cw" call with the
    same angle restores every position: the second call returns the
    positions held before the first and leaves the object as it was. *)
Theorem rotation_inverse self d1 d2 theta :
  update "cw" d2 theta (snd (update "ccw" d1 theta self)) =
  (inr (positions self), self).
Proof.
  rewrite update_ccw. cbn [snd].
  rewrite update_cw.
  rewrite center_with_positions, positions_with_positions, with_positions_twice.
  rewrite rotated_inverse, with_positions_same. reflexivity.
Qed.

Lemma translated_twice a b s ps :
  translated (a, b) s (translated (a, b) s ps) = translated (a, b) (2 * s) ps.
Proof.
  rewrite !translated_spec, map_map. apply map_ext.
  intros [x y]. unfold spec_translation. cbn [fst snd].
  f_equal; ring.
Qed.

(** C7. Two successive "translation" calls with direction [(a, b)] and
    speed [s] return the same positions and leave the same object as
    one call with speed [2 * s]. *)
Theorem translation_additivity self a b s :
  update "translation" (a, b) s (snd (update "translation" (a, b) s self)) =
  update "translation" (a, b) (2 * s) self.
Proof.
  rewrite (update_translation (a, b) s self). cbn [snd].
  rewrite !update_translation.
  rewrite positions_with_positions, with_positions_twice, translated_twice.
  reflexivity.
Qed.

Lemma spec_rotation_distance cx cy a p :
  distance (spec_rotation cx cy a p) (cx, cy) = distance p (cx, cy).
Proof.
  destruct p as [x y]. unfold distance, spec_rotation. cbn [fst snd].
  pose proof (sin2_cos2 a) as H. unfold Rsqr in H.
  f_equal.
  transitivity (((x - cx) * (x - cx) + (y - cy) * (y - cy))
                * (sin a * sin a + cos a * cos a));
    [ring | rewrite H; ring].
Qed.

(** C8. A "cw" or "ccw" call, whatever the speed, leaves the distance of
    every dot to the field center [(width / 2, height / 2)] unchanged:
    dot by dot, the distances after the call are those before it, and
    the center itself does not move. *)
Theorem rotation_preserves_distance self mode direction speed :
  mode = "cw"%string \/ mode = "ccw"%string ->
  let self' := snd (update mode direction speed self) in
  center self' = center self /\
  map (fun p => distance p (center self')) (positions self') =
  map (fun p => distance p (center self)) (positions self).
Proof.
  intros [-> | ->]; cbv zeta.
  - rewrite update_cw. cbn [snd].
    rewrite center_with_positions, positions_with_positions.
    split; [reflexivity|].
    rewrite rotated_spec, map_map. apply map_ext. intro p.
    apply spec_rotation_distance.
  - rewrite update_ccw. cbn [snd].
    rewrite center_with_positions, positions_with_positions.
    split; [reflexivity|].
    rewrite rotated_spec, map_map. apply map_ext. intro p.
    apply spec_rotation_distance.
Qed.

Lemma rotation_preserves_distance_witness :
  center (snd (update "cw" default_direction 3 demo_field)) =
    center demo_field /\
  map (fun p => distance p
                  (center (snd (update "cw" default_direction 3 demo_field))))
      (positions (snd (update "cw" default_direction 3 demo_field))) =
  map (fun p => distance p (center demo_field)) (positions demo_field).
Proof.
  exact (rotation_preserves_distance demo_field "cw" default_direction 3
           (or_introl eq_refl)).
Defined.

(** *** Sequences of calls *)

Lemma translated_length direction speed a :
  List.length (translated direction speed a) = List.length a.
Proof.
  unfold translated. now rewrite iadd_col1_length, iadd_col0_length.
Qed.

Lemma rotated_length c angle a :
  List.length (rotated c angle a) = List.length a.
Proof.
  unfold rotated. now rewrite add_row_length, matmul_length, sub_row_length.
Qed.

(** What one call keeps, in every mode. *)
Lemma update_frame mode direction speed self :
  let self' := snd (update mode direction speed self) in
  List.length (positions self') = List.length (positions self) /\
  width self' = width self /\ height self' = height self /\
  dot_density self' = dot_density self /\ rng self' = rng self.
Proof.
  cbv zeta.
  destruct (update_cases mode direction speed self)
    as [[_ Hrun]|[[angle [_ Hrun]]|[_ Hrun]]];
    rewrite Hrun; cbn [snd].
  - rewrite positions_with_positions, translated_length. repeat split.
  - rewrite positions_with_positions, rotated_length. repeat split.
  - repeat split.
Qed.

(** C9. Over every sequence of [update] calls, in any mode and with the
    unsupported ones among them, the number of dots and the [N x 2]
    shape of the positions stay those of the start, and width and
    height keep their values. *)
Theorem calls_preserve_shape cs self :
  List.length (positions (do_calls cs self)) = List.length (positions self) /\
  np.shape (positions (do_calls cs self)) = np.shape (positions self) /\
  width (do_calls cs self) = width self /\
  height (do_calls cs self) = height self.
Proof.
  unfold np.shape.
  revert self. induction cs as [|c cs IH]; intro self.
  - repeat split.
  - unfold do_calls in *. cbn [fold_left].
    destruct (IH (do_call self c)) as (Hl & Hs & Hw & Hh).
    destruct (update_frame (call_mode c) (call_direction c) (call_speed c) self)
      as (Hl1 & Hw1 & Hh1 & _).
    fold (do_call self c) in Hl1, Hw1, Hh1.
    rewrite Hl, Hw, Hh, Hl1, Hw1, Hh1. repeat split.
Qed.

(** *** The empty field *)

(** C10. A field whose computed dot count [int (w * h * d)] is zero has
    an empty [0 x 2] array of positions, and every call of [update] in a
    supported mode succeeds on it, returns an empty array and leaves the
    field as it is.  Such a field is constructed whenever the count is
    zero and neither width nor height has its sign bit set. *)
Theorem empty_field cap w h d rng0 dflt :
  dot_count w h d = inr 0%Z ->
  (forall self, __init__ cap w h d rng0 dflt = inr self ->
     positions self = [] /\
     np.shape (positions self) = (0%nat, 2%nat) /\
     forall mode direction speed,
       mode = "translation"%string \/ mode = "cw"%string \/
       mode = "ccw"%string ->
       update mode direction speed self = (inr [], self)) /\
  (Py.signbit w = false -> Py.signbit h = false ->
   exists self, __init__ cap w h d rng0 dflt = inr self).
Proof.
  intro Hc. split.
  - intros self Hinit.
    apply init_inv in Hinit as (N & HcN & _ & _ & _ & ->).
    rewrite Hc in HcN. injection HcN as <-.
    change (Z.to_nat 0) with 0%nat.
    cbn [np.draw drawn_x drawn_y np.vstack_T fst snd combine positions].
    split; [reflexivity|]. split; [reflexivity|].
    intros mode direction speed [-> | [-> | ->]].
    + rewrite update_translation. reflexivity.
    + rewrite update_cw. reflexivity.
    + rewrite update_ccw. reflexivity.
  - intros Hsw Hsh. eexists.
    apply (init_run cap w h d rng0 dflt 0 Hc); [lia | exact Hsw | exact Hsh].
Qed.

Lemma empty_field_witness :
  exists self,
    __init__ 1000 (Py.float_of_int 1) (Py.float_of_int 1) f0_5 None half_rng
      = inr self /\
    positions self = [] /\
    update "ccw" default_direction default_speed self = (inr [], self).
Proof.
  destruct (empty_field 1000 (Py.float_of_int 1) (Py.float_of_int 1) f0_5
              None half_rng eq_refl) as (Hall & Hex).
  destruct (Hex eq_refl eq_refl) as [self Hinit].
  destruct (Hall self Hinit) as (Hpos & _ & Hupd).
  exists self. split; [exact Hinit|]. split; [exact Hpos|].
  apply Hupd. right; right; reflexivity.
Defined.

(** ** The scenario of the demonstration: a [200 x 150] field of density
    [0.01] *)

Lemma demo_count :
  dot_count (Py.float_of_int 200) (Py.float_of_int 150) f0_01 = inr 300%Z.
Proof. vm_compute. reflexivity. Qed.

Lemma demo_translation self :
  update default_mode default_direction 5 self =
  (inr (map (fun p => (fst p + 5, snd p)) (positions self)),
   with_positions self (map (fun p => (fst p + 5, snd p)) (positions self))).
Proof.
  unfold default_mode. rewrite update_translation, translated_spec.
  assert (Hmap : map (spec_translation (fst default_direction * 5)
                        (snd default_direction * 5)) (positions self) =
                 map (fun p => (fst p + 5, snd p)) (positions self)).
  { apply map_ext. intros [x y]. unfold spec_translation, default_direction.
    cbn [fst snd]. f_equal; ring. }
  rewrite Hmap. reflexivity.
Qed.

(** ** Further properties of the constructor *)




(** X2. The constructor draws exactly [2 * N] samples: the generator the
    field holds is the chosen one advanced by twice the number of dots,
    on the same sample source. *)
Theorem init_consumes_samples cap w h d rng0 dflt self :
  __init__ cap w h d rng0 dflt = inr self ->
  np.samples (rng self) = np.samples (chosen_rng rng0 dflt) /\
  np.cursor (rng self) =
    (np.cursor (chosen_rng rng0 dflt) + 2 * List.length (positions self))%nat.
Proof.
  intro Hinit. apply init_inv in Hinit as (N & _ & _ & _ & _ & ->).
  cbn [rng positions]. split.
  - now rewrite !draw_samples.
  - rewrite !draw_cursor. unfold drawn_x, drawn_y.
    rewrite vstack_T_length. lia.
Qed.

Lemma init_consumes_samples_witness :
  exists self,
    __init__ 1000 (Py.float_of_int 2) (Py.float_of_int 3) f0_5 None half_rng
      = inr self /\
    np.cursor (rng self) =
      (np.cursor half_rng + 2 * List.length (positions self))%nat.
Proof.
  assert (Hc : dot_count (Py.float_of_int 2) (Py.float_of_int 3) f0_5
               = inr 3%Z) by (vm_compute; reflexivity).
  pose proof (init_run 1000 (Py.float_of_int 2) (Py.float_of_int 3) f0_5
                None half_rng 3 Hc ltac:(cbn; lia) eq_refl eq_refl) as Hrun.
  cbv zeta in Hrun.
  eexists; split; [exact Hrun|].
  apply (init_consumes_samples 1000 (Py.float_of_int 2) (Py.float_of_int 3)
           f0_5 None half_rng _ Hrun).
Defined.

Lemma draw_values_ext n low high g g' :
  (forall i, (i < n)%nat ->
     np.samples g (np.cursor g + i) = np.samples g' (np.cursor g' + i)) ->
  fst (np.draw n low high g) = fst (np.draw n low high g').
Proof.
  intro Hagree. rewrite !draw_values. apply map_ext_in.
  intros i Hi. apply in_seq in Hi. rewrite Hagree by lia. reflexivity.
Qed.

(** X3. The initial positions depend on the generator only through the
    [2 * N] samples from its cursor on, [N] being the computed dot
    count: two constructions with the same width, height and density
    whose generators agree on these samples give the same positions,
    whatever the generators do afterwards. *)
Theorem init_reproducible cap w h d N rng1 dflt1 rng2 dflt2 self1 self2 :
  dot_count w h d = inr N ->
  let g1 := chosen_rng rng1 dflt1 in
  let g2 := chosen_rng rng2 dflt2 in
  let n := Z.to_nat N in
  (forall i, (i < 2 * n)%nat ->
     np.samples g1 (np.cursor g1 + i) = np.samples g2 (np.cursor g2 + i)) ->
  __init__ cap w h d rng1 dflt1 = inr self1 ->
  __init__ cap w h d rng2 dflt2 = inr self2 ->
  positions self1 = positions self2.
Proof.
  intros Hc g1 g2 n Hagree H1 H2.
  apply init_inv in H1 as (N1 & Hc1 & _ & _ & _ & ->).
  apply init_inv in H2 as (N2 & Hc2 & _ & _ & _ & ->).
  rewrite Hc in Hc1, Hc2. injection Hc1 as <-. injection Hc2 as <-.
  cbn [positions]. fold g1 g2 n. unfold drawn_x, drawn_y. f_equal.
  - apply draw_values_ext. intros i Hi. apply Hagree. lia.
  - apply draw_values_ext. intros i Hi.
    rewrite !draw_samples, !draw_cursor, <- !Nat.add_assoc.
    apply Hagree. lia.
Qed.

Lemma init_reproducible_witness :
  exists self1 self2,
    __init__ 1000 (Py.float_of_int 10) (Py.float_of_int 1) f0_3 None half_rng
      = inr self1 /\
    __init__ 1000 (Py.float_of_int 10) (Py.float_of_int 1) f0_3
      (Some half_then_zero_rng) half_rng = inr self2 /\
    List.length (positions self1) = 3%nat /\
    positions self1 = positions self2.
Proof.
  assert (Hc : dot_count (Py.float_of_int 10) (Py.float_of_int 1) f0_3
               = inr 3%Z) by (vm_compute; reflexivity).
  pose proof (init_run 1000 (Py.float_of_int 10) (Py.float_of_int 1) f0_3
                None half_rng 3 Hc ltac:(cbn; lia) eq_refl eq_refl) as Hrun1.
  pose proof (init_run 1000 (Py.float_of_int 10) (Py.float_of_int 1) f0_3
                (Some half_then_zero_rng) half_rng 3 Hc ltac:(cbn; lia)
                eq_refl eq_refl) as Hrun2.
  cbv zeta in Hrun1, Hrun2.
  eexists; eexists. split; [exact Hrun1|]. split; [exact Hrun2|].
  split.
  - cbn [positions]. unfold drawn_x, drawn_y. apply vstack_T_length.
  - refine (init_reproducible 1000 (Py.float_of_int 10) (Py.float_of_int 1)
              f0_3 3 None half_rng (Some half_then_zero_rng) half_rng _ _
              Hc _ Hrun1 Hrun2).
    intros i Hi.
    unfold chosen_rng, half_rng, half_then_zero_rng.
    cbn [np.samples np.cursor Nat.add].
    destruct (Nat.ltb_spec i 6) as [_|Hge]; [reflexivity|].
    change (Z.to_nat 3) with 3%nat in Hi. lia.
Defined.
(** ** Further properties of [update] *)

Lemma do_call_translation a b s self :
  do_call self (translation_call a b s) =
  with_positions self (translated (a, b) s (positions self)).
Proof.
  unfold do_call, translation_call. cbn [call_mode call_direction call_speed].
  now rewrite update_translation.
Qed.

Lemma do_call_ccw theta self :
  do_call self (ccw_call theta) =
  with_positions self (rotated (center self) theta (positions self)).
Proof. reflexivity. Qed.

Lemma supportedb_spec mode : supportedb mode = true <-> supported mode.
Proof.
  unfold supportedb, supported, Py.contains. cbn [existsb].
  rewrite orb_false_r, !orb_true_iff, !String.eqb_eq. tauto.
Qed.

Lemma do_call_unsupported self c :
  supportedb (call_mode c) = false -> do_call self c = self.
Proof.
  intro Hb. unfold do_call. rewrite update_unsupported; [reflexivity|].
  intro Hs. apply supportedb_spec in Hs. congruence.
Qed.

(** What a sequence of calls keeps. *)
Lemma do_calls_frame cs self :
  List.length (positions (do_calls cs self)) = List.length (positions self) /\
  width (do_calls cs self) = width self /\
  height (do_calls cs self) = height self /\
  dot_density (do_calls cs self) = dot_density self /\
  rng (do_calls cs self) = rng self.
Proof.
  revert self. induction cs as [|c cs IH]; intro self; [repeat split|].
  unfold do_calls in *. cbn [fold_left].
  destruct (IH (do_call self c)) as (Hl & Hw & Hh & Hd & Hr).
  destruct (update_frame (call_mode c) (call_direction c) (call_speed c) self)
    as (Hl1 & Hw1 & Hh1 & Hd1 & Hr1).
  fold (do_call self c) in Hl1, Hw1, Hh1, Hd1, Hr1.
  rewrite Hl, Hw, Hh, Hd, Hr, Hl1, Hw1, Hh1, Hd1, Hr1. repeat split.
Qed.

(** X4. No sequence of [update] calls draws from the generator or
    changes the density: the field holds the generator and the density
    it had before the calls. *)
Theorem calls_keep_rng cs self :
  rng (do_calls cs self) = rng self /\
  dot_density (do_calls cs self) = dot_density self.
Proof.
  destruct (do_calls_frame cs self) as (_ & _ & _ & Hd & Hr). now split.
Qed.

(** X5. Calls with an unsupported mode have no effect on the field: a
    sequence of calls leaves the field as the sequence of its supported
    calls does. *)
Theorem unsupported_calls_skipped cs self :
  do_calls cs self =
  do_calls (filter (fun c => supportedb (call_mode c)) cs) self.
Proof.
  revert self. induction cs as [|c cs IH]; intro self; [reflexivity|].
  cbn [filter]. destruct (supportedb (call_mode c)) eqn:Hb.
  - unfold do_calls in *. cbn [fold_left]. apply IH.
  - unfold do_calls in *. cbn [fold_left].
    rewrite (do_call_unsupported self c Hb). apply IH.
Qed.

Lemma translated_compose a b s c d t ps :
  translated (c, d) t (translated (a, b) s ps) =
  map (spec_translation (a * s + c * t) (b * s + d * t)) ps.
Proof.
  rewrite !translated_spec, map_map. apply map_ext.
  intros [x y]. unfold spec_translation. cbn [fst snd]. f_equal; ring.
Qed.

Lemma translated_zero a b ps : translated (a, b) 0 ps = ps.
Proof.
  rewrite translated_spec. rewrite <- (map_id ps) at 2. apply map_ext.
  intros [x y]. unfold spec_translation. cbn [fst snd]. f_equal; ring.
Qed.

(** X6. [n] successive "translation" calls with one direction and speed
    [s] leave the field as a single call with speed [n * s] does; for
    [n = 0] this is a call with speed [0], which moves nothing. *)
Theorem translation_n_fold n a b s self :
  do_calls (repeat (translation_call a b s) n) self =
  do_call self (translation_call a b (INR n * s)).
Proof.
  revert self. induction n as [|n IH]; intro self.
  - cbn [repeat do_calls fold_left]. rewrite do_call_translation.
    replace (INR 0 * s) with 0 by (simpl; ring).
    now rewrite translated_zero, with_positions_same.
  - cbn [repeat]. unfold do_calls in *. cbn [fold_left].
    rewrite IH, !do_call_translation.
    rewrite positions_with_positions, with_positions_twice.
    f_equal. rewrite translated_compose, translated_spec.
    apply map_ext. intros [x y]. unfold spec_translation. cbn [fst snd].
    rewrite S_INR. f_equal; ring.
Qed.

(** X7. A "translation" call followed by the call with the same
    direction and the negated speed restores the field, and returns the
    positions held before the two calls. *)
Theorem translation_inverse self a b s :
  update "translation" (a, b) (- s)
    (snd (update "translation" (a, b) s self)) =
  (inr (positions self), self).
Proof.
  rewrite (update_translation (a, b) s self). cbn [snd].
  rewrite update_translation.
  rewrite positions_with_positions, with_positions_twice.
  assert (Hback : translated (a, b) (- s) (translated (a, b) s (positions self))
                  = positions self).
  { rewrite translated_compose. rewrite <- (map_id (positions self)) at 2.
    apply map_ext. intros [x y]. unfold spec_translation. cbn [fst snd].
    f_equal; ring. }
  now rewrite Hback, with_positions_same.
Qed.

(** X8. Two "translation" calls commute: in either order they return
    the same positions and leave the same field, every dot displaced by
    the sum of the two displacements. *)
Theorem translations_commute self a b s c d t :
  update "translation" (c, d) t (snd (update "translation" (a, b) s self)) =
  update "translation" (a, b) s (snd (update "translation" (c, d) t self)) /\
  positions
    (snd (update "translation" (c, d) t
            (snd (update "translation" (a, b) s self)))) =
  map (fun p => (fst p + (a * s + c * t), snd p + (b * s + d * t)))
      (positions self).
Proof.
  rewrite (update_translation (a, b) s self),
    (update_translation (c, d) t self). cbn [snd].
  rewrite !update_translation.
  rewrite !positions_with_positions, !with_positions_twice.
  rewrite !translated_compose. cbn [snd]. rewrite positions_with_positions.
  split; [|reflexivity].
  assert (Hsame :
    map (spec_translation (a * s + c * t) (b * s + d * t)) (positions self) =
    map (spec_translation (c * t + a * s) (d * t + b * s)) (positions self)).
  { apply map_ext. intros [x y]. unfold spec_translation. cbn [fst snd].
    f_equal; ring. }
  now rewrite Hsame.
Qed.

Lemma spec_rotation_compose cx cy a b p :
  spec_rotation cx cy b (spec_rotation cx cy a p) =
  spec_rotation cx cy (a + b) p.
Proof.
  destruct p as [x y]. unfold spec_rotation. cbn [fst snd].
  rewrite cos_plus, sin_plus. f_equal; ring.
Qed.

Lemma rotated_compose c a b ps :
  rotated c b (rotated c a ps) = rotated c (a + b) ps.
Proof.
  rewrite !rotated_spec, map_map. apply map_ext.
  intro p. apply spec_rotation_compose.
Qed.

Lemma spec_rotation_trivial cx cy a p :
  cos a = 1 -> sin a = 0 -> spec_rotation cx cy a p = p.
Proof.
  intros Hc Hs. destruct p as [x y]. unfold spec_rotation. cbn [fst snd].
  rewrite Hc, Hs. f_equal; ring.
Qed.

Lemma rotated_trivial c a ps : cos a = 1 -> sin a = 0 -> rotated c a ps = ps.
Proof.
  intros Hc Hs. rewrite rotated_spec. rewrite <- (map_id ps) at 2.
  apply map_ext. intro p. now apply spec_rotation_trivial.
Qed.

(** X9. Rotations compose by adding their angles: a "ccw" call with
    angle [alpha] followed by one with angle [beta] returns the
    positions and leaves the field of a single "ccw" call with angle
    [alpha + beta]; the same holds for two "cw" calls. *)
Theorem rotations_compose self d1 d2 d3 alpha beta :
  update "ccw" d2 beta (snd (update "ccw" d1 alpha self)) =
    update "ccw" d3 (alpha + beta) self /\
  update "cw" d2 beta (snd (update "cw" d1 alpha self)) =
    update "cw" d3 (alpha + beta) self.
Proof.
  rewrite (update_ccw d1 alpha self), (update_cw d1 alpha self). cbn [snd].
  rewrite !update_ccw, !update_cw.
  rewrite !center_with_positions, !positions_with_positions,
    !with_positions_twice, !rotated_compose.
  replace (- alpha + - beta) with (- (alpha + beta)) by ring.
  split; reflexivity.
Qed.

(** X10. [n] successive "ccw" calls with angle [theta] leave the field
    as a single "ccw" call with angle [n * theta] does; for [n = 0]
    this is the rotation by [0], which moves nothing. *)
Theorem rotation_n_fold n theta self :
  do_calls (repeat (ccw_call theta) n) self =
  do_call self (ccw_call (INR n * theta)).
Proof.
  revert self. induction n as [|n IH]; intro self.
  - cbn [repeat do_calls fold_left]. rewrite do_call_ccw.
    replace (INR 0 * theta) with 0 by (simpl; ring).
    rewrite rotated_trivial by (apply cos_0 || apply sin_0).
    now rewrite with_positions_same.
  - cbn [repeat]. unfold do_calls in *. cbn [fold_left].
    rewrite IH, !do_call_ccw.
    rewrite center_with_positions, positions_with_positions,
      with_positions_twice, rotated_compose.
    replace (theta + INR n * theta) with (INR (S n) * theta)
      by (rewrite S_INR; ring).
    reflexivity.
Qed.

(** X11. A full turn moves nothing: a "ccw" or "cw" call with speed
    [2 * PI] returns the positions unchanged and leaves the field as it
    was. *)
Theorem rotation_full_turn self direction :
  update "ccw" direction (2 * PI) self = (inr (positions self), self) /\
  update "cw" direction (2 * PI) self = (inr (positions self), self).
Proof.
  assert (Hc : cos (- (2 * PI)) = 1) by (rewrite cos_neg; apply cos_2PI).
  assert (Hs : sin (- (2 * PI)) = 0) by (rewrite sin_neg, sin_2PI; ring).
  rewrite update_ccw, update_cw.
  rewrite (rotated_trivial _ (2 * PI) _ cos_2PI sin_2PI).
  rewrite (rotated_trivial _ (- (2 * PI)) _ Hc Hs).
  rewrite with_positions_same. split; reflexivity.
Qed.

(** X12. A half turn is the point reflection in the field center: a
    "ccw" or "cw" call with speed [PI] sends every dot [(x, y)] to
    [(width - x, height - y)]. *)
Theorem rotation_half_turn self direction :
  positions (snd (update "ccw" direction PI self)) =
    map (fun p => (width self - fst p, height self - snd p)) (positions self) /\
  positions (snd (update "cw" direction PI self)) =
    map (fun p => (width self - fst p, height self - snd p)) (positions self).
Proof.
  rewrite update_ccw, update_cw. cbn [snd].
  rewrite !positions_with_positions, !rotated_spec.
  split; apply map_ext; intros [x y]; unfold spec_rotation, center;
    cbn [fst snd]; rewrite ?cos_neg, ?sin_neg, cos_PI, sin_PI;
    f_equal; field.
Qed.

(** X13. The two rotation modes undo each other in both orders: a "cw"
    call followed by a "ccw" call with the same speed restores the
    field and returns the positions held before the two calls. *)
Theorem rotation_inverse_cw_first self d1 d2 theta :
  update "ccw" d2 theta (snd (update "cw" d1 theta self)) =
  (inr (positions self), self).
Proof.
  rewrite update_cw. cbn [snd]. rewrite update_ccw.
  rewrite center_with_positions, positions_with_positions,
    with_positions_twice, rotated_compose.
  rewrite rotated_trivial, with_positions_same.
  - reflexivity.
  - replace (- theta + theta) with 0 by ring. apply cos_0.
  - replace (- theta + theta) with 0 by ring. apply sin_0.
Qed.

(** X14. Translating and then rotating is rotating and then translating
    along the rotated direction: a "translation" call with direction
    [(a, b)] followed by a "ccw" call with angle [theta] leaves the
    field as the "ccw" call followed by a "translation" call with the
    same speed and the direction
    [(a cos theta - b sin theta, a sin theta + b cos theta)]. *)
Theorem rotation_of_translation self a b s d theta :
  update "ccw" d theta (snd (update "translation" (a, b) s self)) =
  update "translation"
    (a * cos theta - b * sin theta, a * sin theta + b * cos theta) s
    (snd (update "ccw" d theta self)).
Proof.
  rewrite update_translation, (update_ccw d theta self). cbn [snd].
  rewrite update_ccw, update_translation.
  rewrite center_with_positions, !positions_with_positions,
    !with_positions_twice.
  assert (Hsame :
    rotated (center self) theta (translated (a, b) s (positions self)) =
    translated
      (a * cos theta - b * sin theta, a * sin theta + b * cos theta) s
      (rotated (center self) theta (positions self))).
  { rewrite !rotated_spec, !translated_spec, !map_map. apply map_ext.
    intros [x y]. unfold spec_rotation, spec_translation. cbn [fst snd].
    f_equal; ring. }
  now rewrite Hsame.
Qed.

(** *** Rigid motion *)

Lemma spec_translation_isometry dx dy : isometry (spec_translation dx dy).
Proof.
  intros [x1 y1] [x2 y2]. unfold distance, spec_translation. cbn [fst snd].
  f_equal. ring.
Qed.

Lemma spec_rotation_isometry cx cy a : isometry (spec_rotation cx cy a).
Proof.
  intros [x1 y1] [x2 y2]. unfold distance, spec_rotation. cbn [fst snd].
  pose proof (sin2_cos2 a) as H. unfold Rsqr in H.
  f_equal.
  transitivity (((x1 - x2) * (x1 - x2) + (y1 - y2) * (y1 - y2))
                * (sin a * sin a + cos a * cos a));
    [ring | rewrite H; ring].
Qed.

Lemma isometry_compose f g : isometry f -> isometry g ->
  isometry (fun p => g (f p)).
Proof. intros Hf Hg p q. now rewrite Hg, Hf. Qed.

(** One call moves all dots by one map of the plane. *)
Lemma do_call_pointwise self c :
  exists f, isometry f /\ positions (do_call self c) = map f (positions self).
Proof.
  unfold do_call.
  destruct (update_cases (call_mode c) (call_direction c) (call_speed c) self)
    as [[_ Hrun]|[[angle [_ Hrun]]|[_ Hrun]]]; rewrite Hrun; cbn [snd].
  - eexists. split; [apply spec_translation_isometry|].
    rewrite positions_with_positions. apply translated_spec.
  - eexists. split; [apply spec_rotation_isometry|].
    rewrite positions_with_positions. apply rotated_spec.
  - exists (fun p => p). split; [intros p q; reflexivity|].
    symmetry. apply map_id.
Qed.

(** X15. Every sequence of [update] calls is a rigid motion of the dot
    pattern: all dots are moved by one and the same map of the plane,
    and this map keeps the distance between every two points. *)
Theorem calls_are_rigid cs self :
  exists f, isometry f /\
    positions (do_calls cs self) = map f (positions self).
Proof.
  revert self. induction cs as [|c cs IH]; intro self.
  - exists (fun p => p). split; [intros p q; reflexivity|].
    symmetry. apply map_id.
  - unfold do_calls in *. cbn [fold_left].
    destruct (do_call_pointwise self c) as (f & Hf & Hstep).
    destruct (IH (do_call self c)) as (g & Hg & Hrest).
    exists (fun p => g (f p)). split; [now apply isometry_compose|].
    now rewrite Hrest, Hstep, map_map.
Qed.

(** *** Rotations of a fresh field *)

Lemma init_in_field cap w h d rng0 dflt self :
  0 < Py.real w -> 0 < Py.real h ->
  __init__ cap w h d rng0 dflt = inr self ->
  width self = Py.real w /\ height self = Py.real h /\
  Forall (fun p => 0 <= fst p < Py.real w /\ 0 <= snd p < Py.real h)
    (positions self).
Proof.
  intros Hw Hh Hinit. apply init_inv in Hinit as (N & _ & _ & _ & _ & ->).
  cbn [width height positions]. split; [reflexivity|]. split; [reflexivity|].
  apply Forall_forall. intros [x y] Hin. unfold np.vstack_T in Hin.
  cbn [fst snd]. split.
  - apply in_combine_l in Hin. revert x Hin. apply Forall_forall.
    apply draw_bounds. exact Hw.
  - apply in_combine_r in Hin. revert y Hin. apply Forall_forall.
    apply draw_bounds. exact Hh.
Qed.

Lemma sq_radius_frame self self' p :
  width self' = width self -> height self' = height self ->
  sq_radius self' p = sq_radius self p.
Proof. intros Hw Hh. unfold sq_radius. now rewrite Hw, Hh. Qed.

Lemma sq_radius_rotation self a p :
  sq_radius self (spec_rotation (fst (center self)) (snd (center self)) a p) =
  sq_radius self p.
Proof.
  destruct p as [x y]. unfold sq_radius, spec_rotation, center.
  cbn [fst snd].
  pose proof (sin2_cos2 a) as H. unfold Rsqr in H.
  transitivity (((x - width self / 2) * (x - width self / 2) +
                 (y - height self / 2) * (y - height self / 2))
                * (sin a * sin a + cos a * cos a));
    [ring | rewrite H; ring].
Qed.

Lemma do_call_keeps_disc self c B :
  call_mode c <> "translation"%string ->
  Forall (fun p => sq_radius self p <= B) (positions self) ->
  Forall (fun p => sq_radius self p <= B) (positions (do_call self c)).
Proof.
  intros Hmode Hall. unfold do_call.
  destruct (update_cases (call_mode c) (call_direction c) (call_speed c) self)
    as [[Ht _]|[[angle [_ Hrun]]|[_ Hrun]]]; [congruence| |];
    rewrite Hrun; cbn [snd]; [|exact Hall].
  rewrite positions_with_positions, rotated_spec.
  apply Forall_map. revert Hall. apply Forall_impl.
  intros p Hp. now rewrite sq_radius_rotation.
Qed.

(** X16. Rotations never carry a dot of a fresh field farther from the
    center than half the diagonal: after constructing a field with
    [w > 0] and [h > 0] and any sequence of calls none of which is a
    "translation", every dot [(x, y)] has
    [(x - w/2)^2 + (y - h/2)^2 <= (w^2 + h^2) / 4]. *)
Theorem rotations_stay_in_disc cap w h d rng0 dflt self cs :
  0 < Py.real w -> 0 < Py.real h ->
  __init__ cap w h d rng0 dflt = inr self ->
  Forall (fun c => call_mode c <> "translation"%string) cs ->
  Forall (fun p => (fst p - Py.real w / 2) * (fst p - Py.real w / 2) +
                   (snd p - Py.real h / 2) * (snd p - Py.real h / 2)
                   <= (Py.real w * Py.real w + Py.real h * Py.real h) / 4)
         (positions (do_calls cs self)).
Proof.
  intros Hw Hh Hinit Hmodes.
  destruct (init_in_field cap w h d rng0 dflt self Hw Hh Hinit)
    as (Hws & Hhs & Hbox).
  set (W := Py.real w) in *. set (H := Py.real h) in *.
  assert (Hstart : Forall (fun p => sq_radius self p <= (W * W + H * H) / 4)
                     (positions self)).
  { revert Hbox. apply Forall_impl. intros [x y]. cbn [fst snd].
    intros [Hx Hy]. unfold sq_radius. cbn [fst snd]. rewrite Hws, Hhs. nra. }
  assert (Hend : Forall (fun p => sq_radius self p <= (W * W + H * H) / 4)
                   (positions (do_calls cs self))).
  { clear Hinit Hbox. revert self Hws Hhs Hstart.
    induction Hmodes as [|c cs Hc _ IH]; intros self Hws Hhs Hstart;
      [exact Hstart|].
    unfold do_calls in *. cbn [fold_left].
    destruct (update_frame (call_mode c) (call_direction c) (call_speed c)
                self) as (_ & Hw1 & Hh1 & _).
    fold (do_call self c) in Hw1, Hh1.
    assert (Hnext : Forall
              (fun p => sq_radius (do_call self c) p <= (W * W + H * H) / 4)
              (positions (do_call self c))).
    { pose proof (do_call_keeps_disc self c _ Hc Hstart) as Hk.
      revert Hk. apply Forall_impl. intros p Hp.
      now rewrite (sq_radius_frame self (do_call self c) p Hw1 Hh1). }
    specialize (IH (do_call self c) ltac:(congruence) ltac:(congruence) Hnext).
    revert IH. apply Forall_impl. intros p Hp.
    now rewrite <- (sq_radius_frame self (do_call self c) p Hw1 Hh1). }
  revert Hend. apply Forall_impl. intros p Hp.
  unfold sq_radius in Hp. now rewrite Hws, Hhs in Hp.
Qed.

Lemma real_of_small_int :
  Py.real (Py.float_of_int 2) = 2 /\ Py.real (Py.float_of_int 3) = 3.
Proof. split; vm_compute; lra. Qed.

Lemma rotations_stay_in_disc_witness :
  exists self,
    __init__ 1000 (Py.float_of_int 2) (Py.float_of_int 3) f0_5 None
      harmonic_rng = inr self /\
    Forall (fun p =>
              (fst p - Py.real (Py.float_of_int 2) / 2) *
              (fst p - Py.real (Py.float_of_int 2) / 2) +
              (snd p - Py.real (Py.float_of_int 3) / 2) *
              (snd p - Py.real (Py.float_of_int 3) / 2)
              <= (Py.real (Py.float_of_int 2) * Py.real (Py.float_of_int 2) +
                  Py.real (Py.float_of_int 3) * Py.real (Py.float_of_int 3))
                 / 4)
      (positions
         (do_calls [ccw_call 1; mkCall "diagonal" (1, 0) 1;
                    mkCall "cw" (1, 0) 2] self)).
Proof.
  assert (Hc : dot_count (Py.float_of_int 2) (Py.float_of_int 3) f0_5
               = inr 3%Z) by (vm_compute; reflexivity).
  pose proof (init_run 1000 (Py.float_of_int 2) (Py.float_of_int 3) f0_5
                None harmonic_rng 3 Hc ltac:(cbn; lia) eq_refl eq_refl)
    as Hrun.
  cbv zeta in Hrun.
  destruct real_of_small_int as [H2 H3].
  assert (Hw : 0 < Py.real (Py.float_of_int 2)) by (rewrite H2; lra).
  assert (Hh : 0 < Py.real (Py.float_of_int 3)) by (rewrite H3; lra).
  eexists; split; [exact Hrun|].
  apply (rotations_stay_in_disc 1000 (Py.float_of_int 2)
           (Py.float_of_int 3) f0_5 None harmonic_rng _ _ Hw Hh Hrun).
  repeat constructor; cbn [call_mode ccw_call]; discriminate.
Defined.

(** ** Properties of [plot] *)

Lemma combine_columns (a : np.ndarray) : combine (map fst a) (map snd a) = a.
Proof.
  induction a as [|[x y] a IH]; [reflexivity|]. cbn. now rewrite IH.
Qed.

(** X17. Plotting a fresh field shows every dot: for a field constructed
    with [w > 0] and [h > 0], [plot] without keyword arguments on a new
    axes sends one scatter command and then sets the view to
    [[0, w] x [0, h]] with equal aspect; the two coordinate sequences of
    the scatter have the same length, pair up to the positions, and lie
    inside the view. *)
Theorem plot_fresh_in_view cap w h d rng0 dflt self :
  0 < Py.real w -> 0 < Py.real h ->
  __init__ cap w h d rng0 dflt = inr self ->
  exists xs ys,
    plot None self =
      [plt.scatter xs ys 2; plt.set_xlim 0 (Py.real w);
       plt.set_ylim 0 (Py.real h); plt.set_aspect "equal"] /\
    List.length xs = List.length ys /\
    combine xs ys = positions self /\
    Forall (fun x => 0 <= x < Py.real w) xs /\
    Forall (fun y => 0 <= y < Py.real h) ys.
Proof.
  intros Hw Hh Hinit.
  destruct (init_in_field cap w h d rng0 dflt self Hw Hh Hinit)
    as (Hws & Hhs & Hbox).
  exists (map fst (positions self)), (map snd (positions self)).
  unfold plot. rewrite Hws, Hhs.
  split; [reflexivity|]. split; [now rewrite !length_map|].
  split; [apply combine_columns|].
  split; apply Forall_map; revert Hbox; apply Forall_impl; tauto.
Qed.

Lemma plot_fresh_in_view_witness :
  exists self xs ys,
    __init__ 1000 (Py.float_of_int 2) (Py.float_of_int 3) f0_5 None
      harmonic_rng = inr self /\
    plot None self =
      [plt.scatter xs ys 2; plt.set_xlim 0 (Py.real (Py.float_of_int 2));
       plt.set_ylim 0 (Py.real (Py.float_of_int 3));
       plt.set_aspect "equal"] /\
    List.length xs = 3%nat /\
    Forall (fun x => 0 <= x < Py.real (Py.float_of_int 2)) xs /\
    Forall (fun y => 0 <= y < Py.real (Py.float_of_int 3)) ys.
Proof.
  assert (Hc : dot_count (Py.float_of_int 2) (Py.float_of_int 3) f0_5
               = inr 3%Z) by (vm_compute; reflexivity).
  pose proof (init_run 1000 (Py.float_of_int 2) (Py.float_of_int 3) f0_5
                None harmonic_rng 3 Hc ltac:(cbn; lia) eq_refl eq_refl)
    as Hrun.
  cbv zeta in Hrun.
  destruct real_of_small_int as [H2 H3].
  assert (Hw : 0 < Py.real (Py.float_of_int 2)) by (rewrite H2; lra).
  assert (Hh : 0 < Py.real (Py.float_of_int 3)) by (rewrite H3; lra).
  destruct (plot_fresh_in_view 1000 (Py.float_of_int 2) (Py.float_of_int 3)
              f0_5 None harmonic_rng _ Hw Hh Hrun)
    as (xs & ys & Hplot & Hlen & Hcomb & Hx & Hy).
  eexists; exists xs, ys. split; [exact Hrun|].
  split; [exact Hplot|]. split; [|split; [exact Hx | exact Hy]].
  apply (f_equal (@List.length _)) in Hcomb.
  rewrite length_combine in Hcomb. cbn [positions] in Hcomb.
  unfold drawn_x, drawn_y in Hcomb. rewrite vstack_T_length in Hcomb. lia.
Defined.

(** X18. The view does not follow the dots: after any sequence of
    [update] calls, [plot] without keyword arguments still sets the
    limits to [[0, width] x [0, height]] of the field before the calls,
    keeps the commands the axes had received, and scatters as many
    points as the field had dots; only the scattered coordinates are
    those of the moved dots. *)
Theorem plot_view_fixed cs ax self :
  exists xs ys,
    plot (Some ax) (do_calls cs self) =
      ax ++ [plt.scatter xs ys 2;
             plt.set_xlim 0 (width self);
             plt.set_ylim 0 (height self);
             plt.set_aspect "equal"] /\
    combine xs ys = positions (do_calls cs self) /\
    List.length xs = List.length (positions self) /\
    List.length ys = List.length (positions self).
Proof.
  destruct (do_calls_frame cs self) as (Hl & Hw & Hh & _).
  exists (map fst (positions (do_calls cs self))),
         (map snd (positions (do_calls cs self))).
  unfold plot. rewrite Hw, Hh.
  split; [reflexivity|]. split; [apply combine_columns|].
  now rewrite !length_map.
Qed.
